(** * One-dimensional lens mass profiles: a shallow embedding

    The development follows [one_d_code/one_d_profiles.py]: the three
    profile classes [SphericalPowerLaw], [Hernquist] and [NFW_Hilbert], their
    constructors and their four evaluators over arrays of radii.

    Numbers.  The Python code computes with numpy [float64] values.  They
    are embedded as [npfloat]: a real number, or one of the IEEE special
    values [+inf], [-inf], [nan].  Finite results are the exact real
    results (rounding, overflow and underflow are not modelled, and the two
    IEEE zeros are identified with [+0]); the operations follow the numpy
    conventions on the special values, in particular a division by zero
    does not raise, it returns an infinity or [nan].  What depends on
    rounding is stated over two further embeddings of the evaluators, given
    after the exact ones: over an abstract rounding and over binary64. *)

From Stdlib Require Import Reals Lra List ZArith Bool Sorted.
Import ListNotations.

Open Scope R_scope.

(** ** numpy floats *)

Inductive npfloat : Type :=
| Fin (r : R)
| PInf
| NInf
| NaN.

Declare Scope npfloat_scope.
Delimit Scope npfloat_scope with fl.
Bind Scope npfloat_scope with npfloat.

(** An array of floats; every operation of the source is element-wise. *)
Definition ndarray : Type := list npfloat.

(** The infinity carrying the sign of [r]; [nan] when [r] is zero. *)
Definition inf_of_sign (r : R) : npfloat :=
  if Rlt_dec 0 r then PInf else if Rlt_dec r 0 then NInf else NaN.

Definition fopp (a : npfloat) : npfloat :=
  match a with
  | Fin x => Fin (- x)
  | PInf => NInf
  | NInf => PInf
  | NaN => NaN
  end.

Definition fadd (a b : npfloat) : npfloat :=
  match a, b with
  | NaN, _ | _, NaN => NaN
  | Fin x, Fin y => Fin (x + y)
  | PInf, NInf | NInf, PInf => NaN
  | PInf, _ | _, PInf => PInf
  | NInf, _ | _, NInf => NInf
  end.

Definition fsub (a b : npfloat) : npfloat := fadd a (fopp b).

Definition fmul (a b : npfloat) : npfloat :=
  match a, b with
  | NaN, _ | _, NaN => NaN
  | Fin x, Fin y => Fin (x * y)
  | Fin x, PInf | PInf, Fin x => inf_of_sign x
  | Fin x, NInf | NInf, Fin x => inf_of_sign (- x)
  | PInf, PInf | NInf, NInf => PInf
  | PInf, NInf | NInf, PInf => NInf
  end.

(** [np.divide] and [/] on numpy values: no exception, [x / 0] is an
    infinity with the sign of [x], and [0 / 0] is [nan]. *)
Definition fdiv (a b : npfloat) : npfloat :=
  match a, b with
  | NaN, _ | _, NaN => NaN
  | Fin x, Fin y => if Req_dec_T y 0 then inf_of_sign x else Fin (x / y)
  | Fin _, (PInf | NInf) => Fin 0
  | PInf, Fin y => if Rlt_dec y 0 then NInf else PInf
  | NInf, Fin y => if Rlt_dec y 0 then PInf else NInf
  | (PInf | NInf), (PInf | NInf) => NaN
  end.

(** [np.log]. *)
Definition flog (a : npfloat) : npfloat :=
  match a with
  | Fin x => if Rlt_dec 0 x then Fin (ln x)
             else if Req_dec_T x 0 then NInf else NaN
  | PInf => PInf
  | NInf | NaN => NaN
  end.

Definition is_integer (y : R) : bool :=
  if Req_dec_T y (IZR (Int_part y)) then true else false.

Definition is_odd_integer (y : R) : bool :=
  is_integer y && Z.odd (Int_part y).

(** [x ** y] for a finite base and a finite non-zero exponent. *)
Definition pow_finite (x y : R) : npfloat :=
  if Rlt_dec 0 x then Fin (Rpower x y)
  else if Req_dec_T x 0 then (if Rlt_dec 0 y then Fin 0 else PInf)
  else if is_integer y
       then (if Z.odd (Int_part y) then Fin (- Rpower (- x) y)
             else Fin (Rpower (- x) y))
       else NaN.

(** [x ** y] for a finite base and an infinite exponent; [up] tells
    whether the exponent is [+inf]. *)
Definition pow_to_inf (x : R) (up : bool) : npfloat :=
  if Req_dec_T (Rabs x) 1 then Fin 1
  else if Rlt_dec (Rabs x) 1 then (if up then Fin 0 else PInf)
  else (if up then PInf else Fin 0).

(** [**] / [np.power] on floats, after the C [pow] function. *)
Definition fpow (a b : npfloat) : npfloat :=
  match b with
  | Fin y =>
      if Req_dec_T y 0 then Fin 1
      else match a with
           | Fin x => pow_finite x y
           | PInf => if Rlt_dec 0 y then PInf else Fin 0
           | NInf => if Rlt_dec 0 y
                     then (if is_odd_integer y then NInf else PInf)
                     else Fin 0
           | NaN => NaN
           end
  | PInf =>
      match a with
      | Fin x => pow_to_inf x true
      | PInf | NInf => PInf
      | NaN => NaN
      end
  | NInf =>
      match a with
      | Fin x => pow_to_inf x false
      | PInf | NInf => Fin 0
      | NaN => NaN
      end
  | NaN =>
      match a with
      | Fin x => if Req_dec_T x 1 then Fin 1 else NaN
      | _ => NaN
      end
  end.

(** [a == b] on floats: [nan] equals nothing, itself included. *)
Definition feqb (a b : npfloat) : bool :=
  match a, b with
  | Fin x, Fin y => if Req_dec_T x y then true else false
  | PInf, PInf | NInf, NInf => true
  | _, _ => false
  end.

(** [a < b] on floats. *)
Definition fltb (a b : npfloat) : bool :=
  match a, b with
  | NaN, _ | _, NaN => false
  | Fin x, Fin y => if Rlt_dec x y then true else false
  | NInf, (Fin _ | PInf) => true
  | Fin _, PInf => true
  | _, _ => false
  end.

(** One element of [np.where(cond, 0, v)]. *)
Definition np_where0 (cond : bool) (v : npfloat) : npfloat :=
  if cond then Fin 0 else v.

Notation "a + b" := (fadd a b) : npfloat_scope.
Notation "a - b" := (fsub a b) : npfloat_scope.
Notation "a * b" := (fmul a b) : npfloat_scope.
Notation "a / b" := (fdiv a b) : npfloat_scope.
Notation "a ** b" := (fpow a b) (at level 30, right associativity) : npfloat_scope.
Notation "- a" := (fopp a) : npfloat_scope.

(** A float literal of the source. *)
Notation "# r" := (Fin r%R) (at level 5, format "# r") : npfloat_scope.

(** ** Methods and constructors

    A method of a Python object reads and may assign the attributes of
    [self]: it is a state transformer over the object.  A constructor
    either builds the object or fails with an exception. *)

Definition method (Self A : Type) : Type := Self -> A * Self.

Definition ret {Self A : Type} (a : A) : method Self A :=
  fun self => (a, self).

Definition bind {Self A B : Type} (m : method Self A) (k : A -> method Self B)
  : method Self B :=
  fun self => k (fst (m self)) (snd (m self)).

(** [self.attr] *)
Definition getattr {Self A : Type} (attr : Self -> A) : method Self A :=
  fun self => (attr self, self).

Notation "x <- m ;; k" := (bind m (fun x => k))
  (at level 61, m at next level, right associativity).

(** The value a call returns, and the object it leaves behind. *)
Definition returned {Self A : Type} (m : method Self A) (self : Self) : A :=
  fst (m self).

Definition object_after {Self A : Type} (m : method Self A) (self : Self) : Self :=
  snd (m self).

Inductive error : Type :=
| InvalidRedshift.

Inductive result (A : Type) : Type :=
| Ok (a : A)
| Err (e : error).

Arguments Ok {A} a.
Arguments Err {A} e.

Definition is_ok {A : Type} (r : result A) : bool :=
  match r with Ok _ => true | Err _ => false end.

Definition and_then {A B : Type} (r : result A) (k : A -> result B) : result B :=
  match r with
  | Ok a => k a
  | Err e => Err e
  end.

(** ** External collaborators

    The cosmology library (astropy, [Planck15]) and the halo
    concentration library (colossus) are outside the repository; they are
    the fields of [Externals].  [c2_over_4piG] is the constant c²/(4πG). *)

Record Externals : Type := {
  angular_diameter_distance : R -> npfloat;
  angular_diameter_distance_z1z2 : R -> R -> npfloat;
  critical_density : R -> npfloat;
  c2_over_4piG : R;
  col_h : npfloat;
  col_concentration : npfloat -> R -> npfloat
}.

(** ** The base class [LensProfile] (module [lens_profile]) *)

Module LensProfile.

Record t : Type := {
  z_l : R;
  z_s : R;
  critical_surface_density_of_lens : npfloat
}.

(** Modelled from the spec: the critical surface density of
    [lens_profile.LensProfile], which is not among the sources:
    c²/(4πG) · D_s / (D_l · D_ls), with the angular-diameter distances
    of the cosmology at [z_l], at [z_s] and between the two. *)
Definition critical_surface_density (ext : Externals) (zl zs : R) : npfloat :=
  (Fin (c2_over_4piG ext) * angular_diameter_distance ext zs
   / (angular_diameter_distance ext zl * angular_diameter_distance_z1z2 ext zl zs))%fl.

(** Modelled from the spec: the constructor of [lens_profile.LensProfile],
    which is not among the sources.  It is called with [(z_l, z_s)], fails
    with [InvalidRedshift] when [z_s <= z_l], and computes the critical
    surface density once. *)
Definition init (ext : Externals) (zl zs : R) : result t :=
  if Rle_dec zs zl then Err InvalidRedshift
  else Ok {| z_l := zl; z_s := zs;
             critical_surface_density_of_lens := critical_surface_density ext zl zs |}.

Definition atanh (y : R) : R := / 2 * ln ((1 + y) / (1 - y)).

(** Modelled from the spec: the auxiliary [f_func] of
    [lens_profile.LensProfile], which is not among the sources, at a
    positive real: arctanh(sqrt(1-x²))/sqrt(1-x²) on (0,1), exactly 1 at
    x = 1, arctan(sqrt(x²-1))/sqrt(x²-1) above 1. *)
Definition f_func_value (x : R) : R :=
  if Rlt_dec x 1 then atanh (sqrt (1 - x * x)) / sqrt (1 - x * x)
  else if Req_dec_T x 1 then 1
  else atan (sqrt (x * x - 1)) / sqrt (x * x - 1).

(** Modelled from the spec: [f_func] on one element of its argument;
    outside the domain x > 0 the result is [nan], and the third branch
    gives 0 at [+inf]. *)
Definition f_func (x : npfloat) : npfloat :=
  match x with
  | Fin x => if Rlt_dec 0 x then Fin (f_func_value x) else NaN
  | PInf => Fin 0
  | NInf | NaN => NaN
  end.

End LensProfile.

(** ** [SphericalPowerLaw] *)

Module SphericalPowerLaw.

Record t : Type := {
  base : LensProfile.t;
  einstein_radius : npfloat;
  slope : npfloat;
  m_ein : npfloat;
  rho_s : npfloat
}.

Definition critical_surface_density_of_lens (self : t) : npfloat :=
  LensProfile.critical_surface_density_of_lens (base self).

Definition init (ext : Externals) (einstein_radius slope : npfloat) (z_s z_l : R)
  : result t :=
  and_then (LensProfile.init ext z_l z_s) (fun super =>
    let sigma_cr := LensProfile.critical_surface_density_of_lens super in
    let m_ein := (#PI * einstein_radius ** #2 * sigma_cr)%fl in
    Ok {| base := super;
          einstein_radius := einstein_radius;
          slope := slope;
          m_ein := m_ein;
          rho_s := (m_ein / (#PI * einstein_radius ** #2))%fl |}).

Definition density_from_radii (radii : ndarray) : method t ndarray :=
  sigma_cr <- getattr critical_surface_density_of_lens ;;
  slope <- getattr slope ;;
  ret (map (fun r => sigma_cr * (#1 / r) ** slope)%fl radii).

Definition surface_mass_density_from_radii (radii : ndarray) : method t ndarray :=
  sigma_cr <- getattr critical_surface_density_of_lens ;;
  slope <- getattr slope ;;
  einstein_radius <- getattr einstein_radius ;;
  ret (map (fun r =>
         sigma_cr * ((#3 - slope) / #2) * (einstein_radius / r) ** (slope - #1))%fl
         radii).

Definition convergence_from_radii (radii : ndarray) : method t ndarray :=
  slope <- getattr slope ;;
  einstein_radius <- getattr einstein_radius ;;
  ret (map (fun r =>
         (#3 - slope) / #2 * (einstein_radius / r) ** (slope - #1))%fl
         radii).

Definition deflection_angles_from_radii (radii : ndarray) : method t ndarray :=
  slope <- getattr slope ;;
  einstein_radius <- getattr einstein_radius ;;
  ret (map (fun r =>
         einstein_radius * (einstein_radius / r) ** (slope - #2))%fl
         radii).

End SphericalPowerLaw.

(** ** [Hernquist] *)

Module Hernquist.

Record t : Type := {
  base : LensProfile.t;
  mass : npfloat;
  effective_radius : npfloat;
  half_mass_radius : npfloat;
  r_s : npfloat;
  rho_s : npfloat;
  kappa_s : npfloat
}.

Definition critical_surface_density_of_lens (self : t) : npfloat :=
  LensProfile.critical_surface_density_of_lens (base self).

Definition init (ext : Externals) (mass effective_radius : npfloat) (z_s z_l : R)
  : result t :=
  and_then (LensProfile.init ext z_l z_s) (fun super =>
    let sigma_cr := LensProfile.critical_surface_density_of_lens super in
    let half_mass_radius := (effective_radius * #1.33)%fl in
    let r_s := (effective_radius / #1.8153)%fl in
    let rho_s := (mass / (#2 * #PI * r_s ** #3))%fl in
    let kappa_s := (rho_s * r_s / sigma_cr)%fl in
    Ok {| base := super;
          mass := mass;
          effective_radius := effective_radius;
          half_mass_radius := half_mass_radius;
          r_s := r_s;
          rho_s := rho_s;
          kappa_s := kappa_s |}).

Section Evaluators.

(** The inherited [self.f_func], applied to one element. *)
Variable f_func : npfloat -> npfloat.

Definition density_from_radii (radii : ndarray) : method t ndarray :=
  r_s <- getattr r_s ;;
  rho_s <- getattr rho_s ;;
  ret (map (fun r =>
         let x := r / r_s in
         rho_s / (x * (#1 + x) ** #3))%fl
         radii).

Definition surface_mass_density_from_radii (radii : ndarray) : method t ndarray :=
  r_s <- getattr r_s ;;
  rho_s <- getattr rho_s ;;
  ret (map (fun r =>
         let x := r / r_s in
         let f := f_func x in
         np_where0 (feqb f #0)
           (rho_s * r_s / (x ** #2 - #1) ** #2
            * (#(-3) + (#1 - f) * (#2 + x ** #2))))%fl
         radii).

Definition convergence_from_radii (radii : ndarray) : method t ndarray :=
  r_s <- getattr r_s ;;
  kappa_s <- getattr kappa_s ;;
  ret (map (fun r =>
         let x := r / r_s in
         let f := f_func x in
         np_where0 (feqb f #0)
           (kappa_s / (x ** #2 - #1) ** #2
            * (#(-3) + (#1 - f) * (#2 + x ** #2))))%fl
         radii).

Definition deflection_angles_from_radii (radii : ndarray) : method t ndarray :=
  r_s <- getattr r_s ;;
  kappa_s <- getattr kappa_s ;;
  ret (map (fun r =>
         let x := r / r_s in
         let f := f_func x in
         np_where0 (feqb f #0)
           (#2 * kappa_s * r_s * (x * f / (x ** #2 - #1))))%fl
         radii).

End Evaluators.

End Hernquist.

(** ** [NFW_Hilbert] *)

Module NFW_Hilbert.

Record t : Type := {
  base : LensProfile.t;
  m200 : npfloat;
  concentration : npfloat;
  r200 : npfloat;
  r_s : npfloat;
  rho_s : npfloat;
  kappa_s : npfloat
}.

Definition critical_surface_density_of_lens (self : t) : npfloat :=
  LensProfile.critical_surface_density_of_lens (base self).

Definition init (ext : Externals) (m200 : npfloat) (z_s z_l : R) : result t :=
  and_then (LensProfile.init ext z_l z_s) (fun super =>
    let sigma_cr := LensProfile.critical_surface_density_of_lens super in
    let z_l := LensProfile.z_l super in
    let concentration := col_concentration ext (m200 * col_h ext)%fl z_l in
    let r200 :=
      ((m200 / (#1.333 * #PI * #200 * critical_density ext z_l)) ** #(1 / 3))%fl in
    let r_s := (r200 / concentration)%fl in
    let rho_s :=
      (m200 / (#4 * #PI * r_s ** #3
               * (flog (#1 + concentration) - concentration / (#1 + concentration))))%fl in
    let kappa_s := (rho_s * r_s / sigma_cr)%fl in
    Ok {| base := super;
          m200 := m200;
          concentration := concentration;
          r200 := r200;
          r_s := r_s;
          rho_s := rho_s;
          kappa_s := kappa_s |}).

Section Evaluators.

(** The inherited [self.f_func], applied to one element. *)
Variable f_func : npfloat -> npfloat.

Definition density_from_radii (radii : ndarray) : method t ndarray :=
  r_s <- getattr r_s ;;
  rho_s <- getattr rho_s ;;
  ret (map (fun r =>
         let x := r / r_s in
         rho_s / (x * (#1 + x) ** #2))%fl
         radii).

Definition surface_mass_density_from_radii (radii : ndarray) : method t ndarray :=
  r_s <- getattr r_s ;;
  rho_s <- getattr rho_s ;;
  ret (map (fun r =>
         let x := r / r_s in
         let f := f_func x in
         let sigma := #2 * rho_s * r_s * (f / (x ** #2 - #1)) in
         np_where0 (feqb f #0) sigma)%fl
         radii).

Definition convergence_from_radii (radii : ndarray) : method t ndarray :=
  r_s <- getattr r_s ;;
  kappa_s <- getattr kappa_s ;;
  ret (map (fun r =>
         let x := r / r_s in
         let f := f_func x in
         let kappa := #2 * kappa_s * f / (x ** #2 - #1) in
         np_where0 (feqb f #0) kappa)%fl
         radii).

Definition deflection_angles_from_radii (radii : ndarray) : method t ndarray :=
  r_s <- getattr r_s ;;
  kappa_s <- getattr kappa_s ;;
  ret (map (fun r =>
         let x := r / r_s in
         let f := f_func x in
         #4 * kappa_s * r_s * ((flog (x / #2) + (#1 - f)) / x))%fl
         radii).

End Evaluators.

End NFW_Hilbert.

(** ** Calling an evaluator on any profile

    The three classes share no code for the evaluators; a call
    [profile.evaluator(radii)] is dispatched on the class of the object. *)

Inductive profile : Type :=
| IsSphericalPowerLaw (p : SphericalPowerLaw.t)
| IsHernquist (p : Hernquist.t)
| IsNFW_Hilbert (p : NFW_Hilbert.t).

Inductive evaluator : Type :=
| density_from_radii
| surface_mass_density_from_radii
| convergence_from_radii
| deflection_angles_from_radii.

Definition profile_base (self : profile) : LensProfile.t :=
  match self with
  | IsSphericalPowerLaw p => SphericalPowerLaw.base p
  | IsHernquist p => Hernquist.base p
  | IsNFW_Hilbert p => NFW_Hilbert.base p
  end.

Definition critical_surface_density_of_lens (self : profile) : npfloat :=
  LensProfile.critical_surface_density_of_lens (profile_base self).

Definition as_profile {Self A : Type} (inj : Self -> profile)
  (m : method Self A) (p : Self) : A * profile :=
  (fst (m p), inj (snd (m p))).

Definition call (f_func : npfloat -> npfloat) (e : evaluator) (radii : ndarray)
  : method profile ndarray :=
  fun self =>
    match self with
    | IsSphericalPowerLaw p =>
        as_profile IsSphericalPowerLaw
          match e with
          | density_from_radii => SphericalPowerLaw.density_from_radii radii
          | surface_mass_density_from_radii =>
              SphericalPowerLaw.surface_mass_density_from_radii radii
          | convergence_from_radii => SphericalPowerLaw.convergence_from_radii radii
          | deflection_angles_from_radii =>
              SphericalPowerLaw.deflection_angles_from_radii radii
          end p
    | IsHernquist p =>
        as_profile IsHernquist
          match e with
          | density_from_radii => Hernquist.density_from_radii radii
          | surface_mass_density_from_radii =>
              Hernquist.surface_mass_density_from_radii f_func radii
          | convergence_from_radii => Hernquist.convergence_from_radii f_func radii
          | deflection_angles_from_radii =>
              Hernquist.deflection_angles_from_radii f_func radii
          end p
    | IsNFW_Hilbert p =>
        as_profile IsNFW_Hilbert
          match e with
          | density_from_radii => NFW_Hilbert.density_from_radii radii
          | surface_mass_density_from_radii =>
              NFW_Hilbert.surface_mass_density_from_radii f_func radii
          | convergence_from_radii => NFW_Hilbert.convergence_from_radii f_func radii
          | deflection_angles_from_radii =>
              NFW_Hilbert.deflection_angles_from_radii f_func radii
          end p
    end.

(** A finite and strictly positive value, and a finite one: the data-model
    invariants ask the first of the critical surface density and of the
    physical and scale parameters. *)
Definition positive (a : npfloat) : Prop := exists r : R, a = Fin r /\ 0 < r.

Definition finite (a : npfloat) : Prop := exists r : R, a = Fin r.

(** ** A sample environment

    A toy cosmology and concentration relation, and the profiles of the
    scenarios of the specification built in it. *)

Definition sample_externals : Externals := {|
  angular_diameter_distance := fun z => Fin z;
  angular_diameter_distance_z1z2 := fun z1 z2 => Fin (z2 - z1);
  critical_density := fun _ => Fin 1;
  c2_over_4piG := 1;
  col_h := Fin 0.7;
  col_concentration := fun _ _ => Fin 5
|}.

Definition sample_base : LensProfile.t := {|
  LensProfile.z_l := 0.3;
  LensProfile.z_s := 1;
  LensProfile.critical_surface_density_of_lens :=
    LensProfile.critical_surface_density sample_externals 0.3 1
|}.

(** [Hernquist(mass=1e11, effective_radius=5, z_s=1.0, z_l=0.3)] *)
Definition sample_hernquist : Hernquist.t := {|
  Hernquist.base := sample_base;
  Hernquist.mass := Fin 1e11;
  Hernquist.effective_radius := Fin 5;
  Hernquist.half_mass_radius := (Fin 5 * Fin 1.33)%fl;
  Hernquist.r_s := (Fin 5 / Fin 1.8153)%fl;
  Hernquist.rho_s := (Fin 1e11 / (Fin 2 * Fin PI * (Fin 5 / Fin 1.8153) ** Fin 3))%fl;
  Hernquist.kappa_s :=
    (Fin 1e11 / (Fin 2 * Fin PI * (Fin 5 / Fin 1.8153) ** Fin 3)
     * (Fin 5 / Fin 1.8153)
     / LensProfile.critical_surface_density sample_externals 0.3 1)%fl
|}.

(** [SphericalPowerLaw(einstein_radius=1.2, slope=2, z_s=1.0, z_l=0.3)] *)
Definition sample_power_law : SphericalPowerLaw.t := {|
  SphericalPowerLaw.base := sample_base;
  SphericalPowerLaw.einstein_radius := Fin 1.2;
  SphericalPowerLaw.slope := Fin 2;
  SphericalPowerLaw.m_ein :=
    (Fin PI * Fin 1.2 ** Fin 2
     * LensProfile.critical_surface_density sample_externals 0.3 1)%fl;
  SphericalPowerLaw.rho_s :=
    (Fin PI * Fin 1.2 ** Fin 2
     * LensProfile.critical_surface_density sample_externals 0.3 1
     / (Fin PI * Fin 1.2 ** Fin 2))%fl
|}.

(** An NFW profile with scale radius 20 kpc, density scale 3e6 and the
    convergence scale that goes with them. *)
Definition sample_nfw : NFW_Hilbert.t := {|
  NFW_Hilbert.base := sample_base;
  NFW_Hilbert.m200 := Fin 1e13;
  NFW_Hilbert.concentration := Fin 5;
  NFW_Hilbert.r200 := Fin 100;
  NFW_Hilbert.r_s := Fin 20;
  NFW_Hilbert.rho_s := Fin 3e6;
  NFW_Hilbert.kappa_s :=
    (Fin 3e6 * Fin 20
     / LensProfile.critical_surface_density sample_externals 0.3 1)%fl
|}.

(** The representative grid of radii, R = [0.1, 1, 5, 10, 100] kpc. *)
Definition sample_radii : list R := [0.1; 1; 5; 10; 100].

(** * The evaluators in floating-point arithmetic

    The arithmetic above is exact on finite values.  A [float64] operation
    rounds its exact result to the nearest representable number and
    overflows to an infinity.  Two more embeddings account for this: the
    evaluators over an abstract rounding, for what holds of every IEEE
    format, and over the primitive binary64 floats, to compute them at
    given inputs. *)


(** ** Rounding

    [rnd] rounds a real to the nearest number of the format, taken with an
    unbounded exponent range above.  It is monotone and symmetric, keeps 0,
    1 and the smallest normal number, and its relative error on the normal
    range is at most the unit roundoff (2⁻⁵³ for binary64).  A rounded
    result beyond [max_float] is an overflow.  Below the normal range
    nothing is asked of [rnd] but monotonicity: a result may be rounded to a
    subnormal number or to 0.  The two zeros remain one value, which
    divides as [+0] does. *)

Record Format : Type := {
  rnd : R -> R;
  unit_roundoff : R;
  min_normal : R;
  max_float : R;
  rnd_monotone : forall x y : R, x <= y -> rnd x <= rnd y;
  rnd_opp : forall x : R, rnd (- x) = - rnd x;
  rnd_zero : rnd 0 = 0;
  rnd_one : rnd 1 = 1;
  rnd_min_normal : rnd min_normal = min_normal;
  rnd_error :
    forall x : R, min_normal <= Rabs x -> Rabs (rnd x - x) <= unit_roundoff * Rabs x;
  unit_roundoff_range : 0 <= unit_roundoff < 1;
  min_normal_range : 0 < min_normal <= 1;
  max_float_range : 1 <= max_float
}.


Module Rounded.

Section Arithmetic.

Variable fmt : Format.

(** The float a real result is delivered as. *)
Definition round (v : R) : npfloat :=
  if Rlt_dec (max_float fmt) (rnd fmt v) then PInf
  else if Rlt_dec (rnd fmt v) (- max_float fmt) then NInf
  else Fin (rnd fmt v).

Definition rounded (a : npfloat) : npfloat :=
  match a with
  | Fin v => round v
  | _ => a
  end.

(** The four operations: the exact result of the operation on two floats,
    rounded. *)
Definition add (a b : npfloat) : npfloat := rounded (fadd a b).
Definition sub (a b : npfloat) : npfloat := rounded (fsub a b).
Definition mul (a b : npfloat) : npfloat := rounded (fmul a b).
Definition div (a b : npfloat) : npfloat := rounded (fdiv a b).

(** [x ** 2] on an array, which numpy evaluates as [np.square(x)]. *)
Definition square (a : npfloat) : npfloat := mul a a.

(** A result that is finite, not zero and not subnormal. *)
Definition normal (a : npfloat) : Prop :=
  exists v : R, a = Fin v /\ min_normal fmt < Rabs v.


End Arithmetic.

Module SphericalPowerLaw.

Section Evaluators.

Variable fmt : Format.

(** [**] with a float exponent: the library function [pow], which rounds
    in a way of its own. *)
Variable pow : npfloat -> npfloat -> npfloat.

Local Notation "a -. b" := (sub fmt a b) (at level 50, left associativity).
Local Notation "a *. b" := (mul fmt a b) (at level 40, left associativity).
Local Notation "a /. b" := (div fmt a b) (at level 40, left associativity).

Definition surface_mass_density_from_radii (radii : ndarray)
  : method SphericalPowerLaw.t ndarray :=
  sigma_cr <- getattr SphericalPowerLaw.critical_surface_density_of_lens ;;
  slope <- getattr SphericalPowerLaw.slope ;;
  einstein_radius <- getattr SphericalPowerLaw.einstein_radius ;;
  ret (map (fun r =>
         sigma_cr *. ((Fin 3 -. slope) /. Fin 2)
         *. pow (einstein_radius /. r) (slope -. Fin 1))
         radii).

Definition convergence_from_radii (radii : ndarray)
  : method SphericalPowerLaw.t ndarray :=
  slope <- getattr SphericalPowerLaw.slope ;;
  einstein_radius <- getattr SphericalPowerLaw.einstein_radius ;;
  ret (map (fun r =>
         (Fin 3 -. slope) /. Fin 2 *. pow (einstein_radius /. r) (slope -. Fin 1))
         radii).

End Evaluators.

End SphericalPowerLaw.

Module Hernquist.

Section Evaluators.

Variable fmt : Format.
Variable f_func : npfloat -> npfloat.

Local Notation "a +. b" := (add fmt a b) (at level 50, left associativity).
Local Notation "a -. b" := (sub fmt a b) (at level 50, left associativity).
Local Notation "a *. b" := (mul fmt a b) (at level 40, left associativity).
Local Notation "a /. b" := (div fmt a b) (at level 40, left associativity).

Definition surface_mass_density_from_radii (radii : ndarray)
  : method Hernquist.t ndarray :=
  r_s <- getattr Hernquist.r_s ;;
  rho_s <- getattr Hernquist.rho_s ;;
  ret (map (fun r =>
         let x := r /. r_s in
         let f := f_func x in
         np_where0 (feqb f (Fin 0))
           (rho_s *. r_s /. square fmt (square fmt x -. Fin 1)
            *. (Fin (-3) +. (Fin 1 -. f) *. (Fin 2 +. square fmt x))))
         radii).

Definition convergence_from_radii (radii : ndarray)
  : method Hernquist.t ndarray :=
  r_s <- getattr Hernquist.r_s ;;
  kappa_s <- getattr Hernquist.kappa_s ;;
  ret (map (fun r =>
         let x := r /. r_s in
         let f := f_func x in
         np_where0 (feqb f (Fin 0))
           (kappa_s /. square fmt (square fmt x -. Fin 1)
            *. (Fin (-3) +. (Fin 1 -. f) *. (Fin 2 +. square fmt x))))
         radii).

End Evaluators.

End Hernquist.

Module NFW_Hilbert.

Section Evaluators.

Variable fmt : Format.
Variable f_func : npfloat -> npfloat.

Local Notation "a +. b" := (add fmt a b) (at level 50, left associativity).
Local Notation "a -. b" := (sub fmt a b) (at level 50, left associativity).
Local Notation "a *. b" := (mul fmt a b) (at level 40, left associativity).
Local Notation "a /. b" := (div fmt a b) (at level 40, left associativity).

Definition density_from_radii (radii : ndarray) : method NFW_Hilbert.t ndarray :=
  r_s <- getattr NFW_Hilbert.r_s ;;
  rho_s <- getattr NFW_Hilbert.rho_s ;;
  ret (map (fun r =>
         let x := r /. r_s in
         rho_s /. (x *. square fmt (Fin 1 +. x)))
         radii).

Definition surface_mass_density_from_radii (radii : ndarray)
  : method NFW_Hilbert.t ndarray :=
  r_s <- getattr NFW_Hilbert.r_s ;;
  rho_s <- getattr NFW_Hilbert.rho_s ;;
  ret (map (fun r =>
         let x := r /. r_s in
         let f := f_func x in
         let sigma := Fin 2 *. rho_s *. r_s *. (f /. (square fmt x -. Fin 1)) in
         np_where0 (feqb f (Fin 0)) sigma)
         radii).

Definition convergence_from_radii (radii : ndarray)
  : method NFW_Hilbert.t ndarray :=
  r_s <- getattr NFW_Hilbert.r_s ;;
  kappa_s <- getattr NFW_Hilbert.kappa_s ;;
  ret (map (fun r =>
         let x := r /. r_s in
         let f := f_func x in
         let kappa := Fin 2 *. kappa_s *. f /. (square fmt x -. Fin 1) in
         np_where0 (feqb f (Fin 0)) kappa)
         radii).

End Evaluators.

End NFW_Hilbert.

End Rounded.

(** ** The evaluators on binary64 floats

    The same expressions on the primitive floats of Rocq, which are the
    IEEE 754 binary64 numbers with their operations: what the Python code
    computes where it uses [+], [-], [*], [/] and [x ** 2] on arrays
    ([np.square]) only.  The attributes read by these evaluators are the
    fields of the records. *)

From Stdlib Require Import PrimFloat.

Module Binary64.

Definition where0 (cond : bool) (v : float) : float :=
  if cond then 0%float else v.

Module Hernquist.

Record t : Type := {
  r_s : float;
  rho_s : float;
  kappa_s : float
}.

Section Evaluators.

Variable f_func : float -> float.

Definition surface_mass_density_from_radii (radii : list float) (self : t)
  : list float :=
  map (fun r =>
         let x := r / r_s self in
         let f := f_func x in
         where0 (f =? 0)
           (rho_s self * r_s self / ((x * x - 1) * (x * x - 1))
            * (-3 + (1 - f) * (2 + x * x))))%float
    radii.

Definition convergence_from_radii (radii : list float) (self : t) : list float :=
  map (fun r =>
         let x := r / r_s self in
         let f := f_func x in
         where0 (f =? 0)
           (kappa_s self / ((x * x - 1) * (x * x - 1))
            * (-3 + (1 - f) * (2 + x * x))))%float
    radii.

End Evaluators.

End Hernquist.

Module NFW_Hilbert.

Record t : Type := {
  r_s : float;
  rho_s : float
}.

Definition density_from_radii (radii : list float) (self : t) : list float :=
  map (fun r =>
         let x := r / r_s self in
         rho_s self / (x * ((1 + x) * (1 + x))))%float
    radii.

End NFW_Hilbert.

(** [Hernquist(mass=1e11, effective_radius=5)] with a critical surface
    density of 2023140100.6956682: r_s = 5/1.8153, rho_s as the constructor
    computes it in double precision, 761649816.1518918, and
    kappa_s = rho_s·r_s/Σ_cr. *)
Definition sample_sigma_cr : float := 0x1.e25aac12c85d4p+30%float.

Definition sample_hernquist : Hernquist.t := {|
  Hernquist.r_s := 0x1.608f0de40c945p+1;
  Hernquist.rho_s := 0x1.6b2ed4c137131p+29;
  Hernquist.kappa_s :=
    (0x1.6b2ed4c137131p+29 * 0x1.608f0de40c945p+1 / sample_sigma_cr)%float
|}.

(** Values for [f_func] at x = 5/r_s: the value of the formula of the
    specification in double precision, 0.6517274607671686, its three
    neighbours on either side, and five other numbers. *)
Definition sample_f_values : list float :=
  [0x1.4daf38c3ccdb5p-1; 0x1.4daf38c3ccdb6p-1; 0x1.4daf38c3ccdb7p-1;
   0x1.4daf38c3ccdb8p-1; 0x1.4daf38c3ccdb9p-1; 0x1.4daf38c3ccdbap-1;
   0x1.4daf38c3ccdbbp-1; 0.5; 0.25; 0.75; 2; 0x1.999999999999ap-4]%float.

(** An NFW profile with r_s = 20 and rho_s = 3e6. *)
Definition sample_nfw : NFW_Hilbert.t := {|
  NFW_Hilbert.r_s := 20;
  NFW_Hilbert.rho_s := 3000000
|}.

End Binary64.

(** * Properties *)

(** ** Facts on finite values *)

Section FiniteArithmetic.

Variables x y : R.

Lemma fadd_fin : (Fin x + Fin y)%fl = Fin (x + y).
Proof. reflexivity. Qed.

Lemma fsub_fin : (Fin x - Fin y)%fl = Fin (x - y).
Proof. reflexivity. Qed.

Lemma fmul_fin : (Fin x * Fin y)%fl = Fin (x * y).
Proof. reflexivity. Qed.

Lemma fdiv_fin : y <> 0 -> (Fin x / Fin y)%fl = Fin (x / y).
Proof.
  intros Hy. unfold fdiv. destruct (Req_dec_T y 0) as [E|_]; [contradiction|reflexivity].
Qed.

Lemma fdiv_zero : (Fin x / Fin 0)%fl = inf_of_sign x.
Proof.
  unfold fdiv. destruct (Req_dec_T 0 0) as [_|N]; [reflexivity|now elim N].
Qed.

Lemma flog_fin : 0 < x -> flog (Fin x) = Fin (ln x).
Proof.
  intros Hx. unfold flog. destruct (Rlt_dec 0 x) as [_|N]; [reflexivity|contradiction].
Qed.

Lemma fpow_zero (a : npfloat) : (a ** Fin 0)%fl = Fin 1.
Proof.
  unfold fpow. destruct (Req_dec_T 0 0) as [_|N]; [reflexivity|now elim N].
Qed.

Lemma fpow_pos : 0 < x -> (Fin x ** Fin y)%fl = Fin (Rpower x y).
Proof.
  intros Hx. unfold fpow, pow_finite.
  destruct (Req_dec_T y 0) as [->|_].
  - now rewrite Rpower_O.
  - destruct (Rlt_dec 0 x) as [_|N]; [reflexivity|contradiction].
Qed.

Lemma feqb_fin : feqb (Fin x) (Fin y) = true <-> x = y.
Proof.
  unfold feqb. destruct (Req_dec_T x y); split; intros; congruence.
Qed.

Lemma fltb_fin : fltb (Fin x) (Fin y) = true <-> x < y.
Proof.
  unfold fltb. destruct (Rlt_dec x y); split; intros; congruence.
Qed.

End FiniteArithmetic.

Lemma inf_of_sign_pos r : 0 < r -> inf_of_sign r = PInf.
Proof.
  intros H. unfold inf_of_sign. destruct (Rlt_dec 0 r); [reflexivity|contradiction].
Qed.

Lemma inf_of_sign_neg r : r < 0 -> inf_of_sign r = NInf.
Proof.
  intros H. unfold inf_of_sign.
  destruct (Rlt_dec 0 r); [lra|]. destruct (Rlt_dec r 0); [reflexivity|contradiction].
Qed.

Lemma inf_of_sign_zero : inf_of_sign 0 = NaN.
Proof.
  unfold inf_of_sign.
  destruct (Rlt_dec 0 0); [lra|]. destruct (Rlt_dec 0 0); [lra|reflexivity].
Qed.

Lemma feqb_zero_iff (a : npfloat) : feqb a (Fin 0) = true <-> a = Fin 0.
Proof.
  destruct a as [r| | |]; simpl; try (split; intros; discriminate).
  destruct (Req_dec_T r 0) as [->|N]; split; intros H; try reflexivity; try discriminate.
  injection H as H. contradiction.
Qed.

Lemma is_integer_IZR (z : Z) : is_integer (IZR z) = true /\ Int_part (IZR z) = z.
Proof.
  assert (E : Int_part (IZR z) = z).
  { symmetry. apply Int_part_spec. lra. }
  split; [|exact E].
  unfold is_integer. rewrite E. destruct (Req_dec_T (IZR z) (IZR z)); congruence.
Qed.

Lemma Rpower_2 (x : R) : 0 < x -> Rpower x 2 = x * x.
Proof.
  intros Hx. replace 2 with (INR 2) by (simpl; lra).
  rewrite Rpower_pow by assumption. simpl. ring.
Qed.

Lemma Rpower_3 (x : R) : 0 < x -> Rpower x 3 = x * x * x.
Proof.
  intros Hx. replace 3 with (INR 3) by (simpl; lra).
  rewrite Rpower_pow by assumption. simpl. ring.
Qed.

(** Squaring, [x ** 2], whatever the sign of the base. *)
Lemma fpow_2 (x : R) : (Fin x ** Fin 2)%fl = Fin (x * x).
Proof.
  unfold fpow, pow_finite.
  destruct (Req_dec_T 2 0) as [E|_]; [lra|].
  destruct (Rlt_dec 0 x) as [Hx|Hx].
  - now rewrite Rpower_2.
  - destruct (Req_dec_T x 0) as [->|Hx0].
    + destruct (Rlt_dec 0 2); [|lra]. f_equal. ring.
    + destruct (is_integer_IZR 2) as [-> ->]. simpl.
      rewrite Rpower_2 by lra. f_equal. ring.
Qed.

Lemma fpow_3_pos (x : R) : 0 < x -> (Fin x ** Fin 3)%fl = Fin (x * x * x).
Proof.
  intros Hx. rewrite fpow_pos by assumption. now rewrite Rpower_3.
Qed.

(** ** Running a method *)

Ltac run_method :=
  cbv [returned object_after bind getattr ret fst snd as_profile call
       SphericalPowerLaw.density_from_radii
       SphericalPowerLaw.surface_mass_density_from_radii
       SphericalPowerLaw.convergence_from_radii
       SphericalPowerLaw.deflection_angles_from_radii
       Hernquist.density_from_radii
       Hernquist.surface_mass_density_from_radii
       Hernquist.convergence_from_radii
       Hernquist.deflection_angles_from_radii
       NFW_Hilbert.density_from_radii
       NFW_Hilbert.surface_mass_density_from_radii
       NFW_Hilbert.convergence_from_radii
       NFW_Hilbert.deflection_angles_from_radii].

Lemma fmul_one_r (a : npfloat) : (a * Fin 1)%fl = a.
Proof.
  destruct a as [r| | |]; simpl.
  - f_equal. ring.
  - apply inf_of_sign_pos. lra.
  - apply inf_of_sign_neg. lra.
  - reflexivity.
Qed.

Lemma map_constant_ext {A B : Type} (g : A -> B) (b : B) (l : list A) :
  (forall a, g a = b) -> map g l = map (fun _ => b) l.
Proof.
  intros H. apply map_ext. exact H.
Qed.

(** ** The base constructor *)

Lemma base_init_fails ext zl zs :
  zs <= zl -> LensProfile.init ext zl zs = Err InvalidRedshift.
Proof.
  intros H. unfold LensProfile.init. destruct (Rle_dec zs zl); [reflexivity|contradiction].
Qed.

Lemma base_init_succeeds ext zl zs :
  zl < zs ->
  LensProfile.init ext zl zs
  = Ok {| LensProfile.z_l := zl; LensProfile.z_s := zs;
          LensProfile.critical_surface_density_of_lens :=
            LensProfile.critical_surface_density ext zl zs |}.
Proof.
  intros H. unfold LensProfile.init. destruct (Rle_dec zs zl); [lra|reflexivity].
Qed.

Lemma base_init_ok_iff ext zl zs :
  is_ok (LensProfile.init ext zl zs) = true <-> zl < zs.
Proof.
  unfold LensProfile.init. destruct (Rle_dec zs zl); simpl; split; intros; try lra; congruence.
Qed.

Lemma and_then_ok_iff {A B : Type} (r : result A) (k : A -> B) :
  is_ok (and_then r (fun a => Ok (k a))) = is_ok r.
Proof. destruct r; reflexivity. Qed.

Lemma and_then_err {A B : Type} (r : result A) (k : A -> result B) e :
  r = Err e -> and_then r k = Err e.
Proof. intros ->. reflexivity. Qed.

(** C8. Each of the three constructors calls the base constructor first:
    with [z_s <= z_l] it fails with [InvalidRedshift], and it succeeds
    exactly when [z_l < z_s]. *)
Theorem construction_requires_ordered_redshifts
  (ext : Externals) (einstein_radius slope mass effective_radius m200 : npfloat)
  (z_s z_l : R) :
  (z_s <= z_l <->
     SphericalPowerLaw.init ext einstein_radius slope z_s z_l = Err InvalidRedshift
     /\ Hernquist.init ext mass effective_radius z_s z_l = Err InvalidRedshift
     /\ NFW_Hilbert.init ext m200 z_s z_l = Err InvalidRedshift)
  /\
  (z_l < z_s <->
     is_ok (SphericalPowerLaw.init ext einstein_radius slope z_s z_l) = true
     /\ is_ok (Hernquist.init ext mass effective_radius z_s z_l) = true
     /\ is_ok (NFW_Hilbert.init ext m200 z_s z_l) = true).
Proof.
  unfold SphericalPowerLaw.init, Hernquist.init, NFW_Hilbert.init.
  split; split.
  - intros H. rewrite !(and_then_err _ _ _ (base_init_fails ext z_l z_s H)). auto.
  - intros [H _]. destruct (Rle_lt_dec z_s z_l) as [L|L]; [exact L|].
    rewrite (base_init_succeeds ext z_l z_s L) in H. discriminate H.
  - intros H. rewrite !(base_init_succeeds ext z_l z_s H). simpl. auto.
  - intros [H _]. destruct (Rle_lt_dec z_s z_l) as [L|L]; [|exact L].
    rewrite (and_then_err _ _ _ (base_init_fails ext z_l z_s L)) in H. discriminate H.
Qed.

(** ** The isothermal power law *)

Lemma power_law_deflection_slope_2 (self : SphericalPowerLaw.t) (radii : ndarray) :
  SphericalPowerLaw.slope self = Fin 2 ->
  returned (SphericalPowerLaw.deflection_angles_from_radii radii) self
  = map (fun _ => SphericalPowerLaw.einstein_radius self) radii.
Proof.
  intros Hs. run_method. rewrite Hs. apply map_constant_ext. intros r.
  replace (Fin 2 - Fin 2)%fl with (Fin 0).
  - rewrite fpow_zero. apply fmul_one_r.
  - simpl. f_equal. ring.
Qed.

(** C5. A power law constructed with slope 2 deflects by its Einstein
    radius at every radius: the exponent [slope - 2] is zero. *)
Theorem isothermal_deflection_is_einstein_radius
  (ext : Externals) (einstein_radius : npfloat) (z_s z_l : R)
  (self : SphericalPowerLaw.t) (radii : ndarray) :
  SphericalPowerLaw.init ext einstein_radius (Fin 2) z_s z_l = Ok self ->
  returned (SphericalPowerLaw.deflection_angles_from_radii radii) self
  = map (fun _ => einstein_radius) radii.
Proof.
  unfold SphericalPowerLaw.init. intros H.
  destruct (LensProfile.init ext z_l z_s) as [super|e]; simpl in H; [|discriminate H].
  injection H as <-.
  now rewrite power_law_deflection_slope_2.
Qed.

Lemma isothermal_deflection_is_einstein_radius_witness :
  returned (SphericalPowerLaw.deflection_angles_from_radii (map Fin sample_radii))
    sample_power_law
  = map (fun _ => Fin 1.2) (map Fin sample_radii).
Proof.
  apply (isothermal_deflection_is_einstein_radius sample_externals (Fin 1.2) 1 0.3).
  unfold SphericalPowerLaw.init. rewrite base_init_succeeds by lra. reflexivity.
Defined.

(** ** Evaluators do not assign attributes *)

(** C9. A call of any of the four evaluators on any profile returns the
    object as it was, so every attribute keeps its value, and any call that
    follows, in particular the same call repeated, returns what it would
    have returned before. *)
Theorem evaluators_leave_the_profile_unchanged
  (f_func : npfloat -> npfloat) (e : evaluator) (radii : ndarray) (self : profile) :
  object_after (call f_func e radii) self = self
  /\ returned (call f_func e radii) (object_after (call f_func e radii) self)
     = returned (call f_func e radii) self
  /\ forall (e' : evaluator) (radii' : ndarray),
       returned (call f_func e' radii') (object_after (call f_func e radii) self)
       = returned (call f_func e' radii') self.
Proof.
  assert (H : object_after (call f_func e radii) self = self).
  { destruct self, e; reflexivity. }
  rewrite H. repeat split; reflexivity.
Qed.

(** ** The Hernquist constructor *)



(** ** The mask on [f == 0] *)

Lemma np_where0_masked (f v : npfloat) :
  f = Fin 0 -> np_where0 (feqb f (Fin 0)) v = Fin 0.
Proof.
  intros Hf. apply feqb_zero_iff in Hf. now rewrite Hf.
Qed.

Lemma np_where0_unmasked (f v : npfloat) :
  f <> Fin 0 -> np_where0 (feqb f (Fin 0)) v = v.
Proof.
  intros Hf. destruct (feqb f (Fin 0)) eqn:E; [|reflexivity].
  apply feqb_zero_iff in E. contradiction.
Qed.

Ltac element_of_map H :=
  run_method; rewrite !nth_error_map, H; cbn [option_map].

(** C3. In the three masked evaluators of [Hernquist] and the two of
    [NFW_Hilbert], an element where [f(x)] is zero is exactly 0 in the
    output, and an element where [f(x)] is not zero is the closed-form
    expression of the source, unmasked. *)
Theorem masked_evaluators_elementwise (f_func : npfloat -> npfloat) :
  (forall (self : Hernquist.t) (radii : ndarray) (i : nat) (r : npfloat),
      nth_error radii i = Some r ->
      let r_s := Hernquist.r_s self in
      let rho_s := Hernquist.rho_s self in
      let kappa_s := Hernquist.kappa_s self in
      let x := (r / r_s)%fl in
      let f := f_func x in
      (f = Fin 0 ->
         nth_error (returned (Hernquist.surface_mass_density_from_radii f_func radii) self) i
         = Some (Fin 0)
         /\ nth_error (returned (Hernquist.convergence_from_radii f_func radii) self) i
            = Some (Fin 0)
         /\ nth_error (returned (Hernquist.deflection_angles_from_radii f_func radii) self) i
            = Some (Fin 0))
      /\
      (f <> Fin 0 ->
         nth_error (returned (Hernquist.surface_mass_density_from_radii f_func radii) self) i
         = Some (rho_s * r_s / (x ** #2 - #1) ** #2
                 * (#(-3) + (#1 - f) * (#2 + x ** #2)))%fl
         /\ nth_error (returned (Hernquist.convergence_from_radii f_func radii) self) i
            = Some (kappa_s / (x ** #2 - #1) ** #2
                    * (#(-3) + (#1 - f) * (#2 + x ** #2)))%fl
         /\ nth_error (returned (Hernquist.deflection_angles_from_radii f_func radii) self) i
            = Some (#2 * kappa_s * r_s * (x * f / (x ** #2 - #1)))%fl))
  /\
  (forall (self : NFW_Hilbert.t) (radii : ndarray) (i : nat) (r : npfloat),
      nth_error radii i = Some r ->
      let r_s := NFW_Hilbert.r_s self in
      let rho_s := NFW_Hilbert.rho_s self in
      let kappa_s := NFW_Hilbert.kappa_s self in
      let x := (r / r_s)%fl in
      let f := f_func x in
      (f = Fin 0 ->
         nth_error (returned (NFW_Hilbert.surface_mass_density_from_radii f_func radii) self) i
         = Some (Fin 0)
         /\ nth_error (returned (NFW_Hilbert.convergence_from_radii f_func radii) self) i
            = Some (Fin 0))
      /\
      (f <> Fin 0 ->
         nth_error (returned (NFW_Hilbert.surface_mass_density_from_radii f_func radii) self) i
         = Some (#2 * rho_s * r_s * (f / (x ** #2 - #1)))%fl
         /\ nth_error (returned (NFW_Hilbert.convergence_from_radii f_func radii) self) i
            = Some (#2 * kappa_s * f / (x ** #2 - #1))%fl)).
Proof.
  split; intros self radii i r Hr; cbv zeta; split; intros Hf;
    repeat split; element_of_map Hr; f_equal;
    solve [ now apply np_where0_masked | now apply np_where0_unmasked ].
Qed.

(** C10. The deflection of [NFW_Hilbert] carries no mask: it is the raw
    formula 4·kappa_s·r_s·(ln(x/2) + 1 − f(x))/x at every element, also
    where [f(x)] is zero, where the surface mass density and the
    convergence of the same profile, and the deflection of a [Hernquist]
    profile, are forced to 0. *)
Theorem nfw_deflection_is_not_masked (f_func : npfloat -> npfloat) :
  (forall (self : NFW_Hilbert.t) (radii : ndarray),
      returned (NFW_Hilbert.deflection_angles_from_radii f_func radii) self
      = map (fun r =>
               let x := r / NFW_Hilbert.r_s self in
               #4 * NFW_Hilbert.kappa_s self * NFW_Hilbert.r_s self
               * ((flog (x / #2) + (#1 - f_func x)) / x))%fl radii)
  /\
  (forall (self : NFW_Hilbert.t) (radii : ndarray) (i : nat) (r : npfloat),
      nth_error radii i = Some r ->
      let x := (r / NFW_Hilbert.r_s self)%fl in
      f_func x = Fin 0 ->
      nth_error (returned (NFW_Hilbert.deflection_angles_from_radii f_func radii) self) i
      = Some (#4 * NFW_Hilbert.kappa_s self * NFW_Hilbert.r_s self
              * ((flog (x / #2) + (#1 - #0)) / x))%fl
      /\ nth_error (returned (NFW_Hilbert.surface_mass_density_from_radii f_func radii) self) i
         = Some (Fin 0)
      /\ nth_error (returned (NFW_Hilbert.convergence_from_radii f_func radii) self) i
         = Some (Fin 0))
  /\
  (forall (self : Hernquist.t) (radii : ndarray) (i : nat) (r : npfloat),
      nth_error radii i = Some r ->
      f_func (r / Hernquist.r_s self)%fl = Fin 0 ->
      nth_error (returned (Hernquist.deflection_angles_from_radii f_func radii) self) i
      = Some (Fin 0))
  /\
  (forall (self : NFW_Hilbert.t) (k a : R),
      NFW_Hilbert.kappa_s self = Fin k -> NFW_Hilbert.r_s self = Fin a ->
      0 < a -> k <> 0 ->
      f_func (Fin 2) = Fin 0 ->
      returned (NFW_Hilbert.deflection_angles_from_radii f_func [Fin (2 * a)]) self
      = [Fin (2 * k * a)]
      /\ 2 * k * a <> 0).
Proof.
  split; [|split; [|split]].
  - intros self radii. reflexivity.
  - intros self radii i r Hr x Hf. subst x.
    split; [|split]; element_of_map Hr; f_equal.
    + now rewrite Hf.
    + now apply np_where0_masked.
    + now apply np_where0_masked.
  - intros self radii i r Hr Hf. element_of_map Hr. f_equal.
    now apply np_where0_masked.
  - intros self k a Hk Ha Hpos Hk0 Hf. split.
    + run_method. rewrite Hk, Ha. cbn [map].
      rewrite (fdiv_fin (2 * a) a) by lra.
      replace (2 * a / a) with 2 by (field; lra).
      rewrite Hf. rewrite (fdiv_fin 2 2) by lra.
      replace (2 / 2) with 1 by lra.
      rewrite flog_fin by lra. rewrite ln_1. cbn [fadd fsub fopp fmul].
      rewrite fdiv_fin by lra. cbn [fmul]. do 2 f_equal. field.
    + intros E. apply Rmult_integral in E. destruct E as [E|E]; [|lra].
      apply Rmult_integral in E. destruct E as [E|E]; lra.
Qed.

(** ** [NFW_Hilbert] on positive radii *)




(** ** The element at the scale radius *)

Lemma not_positive_inf_of_sign (r : R) : ~ positive (inf_of_sign r).
Proof.
  intros [y [E _]]. unfold inf_of_sign in E.
  destruct (Rlt_dec 0 r); [discriminate|]. destruct (Rlt_dec r 0); discriminate.
Qed.

Lemma not_positive_inf_times (b : npfloat) : ~ positive (PInf * b)%fl.
Proof.
  destruct b as [y| | |]; cbn [fmul];
    try apply not_positive_inf_of_sign; intros [z [E _]]; discriminate.
Qed.

Lemma not_positive_over_zero (b : npfloat) : ~ positive (b / Fin 0)%fl.
Proof.
  destruct b as [y| | |].
  - rewrite fdiv_zero. apply not_positive_inf_of_sign.
  - cbn [fdiv]. destruct (Rlt_dec 0 0); intros [z [E _]]; discriminate.
  - cbn [fdiv]. destruct (Rlt_dec 0 0); intros [z [E _]]; discriminate.
  - intros [z [E _]]; discriminate.
Qed.

Lemma not_positive_zero : ~ positive (Fin 0).
Proof.
  intros [z [E Hz]]. injection E as E. lra.
Qed.

Lemma fdiv_self (a : R) : a <> 0 -> (Fin a / Fin a)%fl = Fin 1.
Proof.
  intros Ha. rewrite fdiv_fin by assumption. f_equal. now field.
Qed.

Lemma square_of_one_minus_one : (Fin 1 ** #2 - #1)%fl = Fin 0.
Proof.
  rewrite fpow_2. cbn [fsub fadd fopp]. f_equal. ring.
Qed.

(** C2, as the code behaves.  At a radius equal to the scale radius, x is 1
    and the denominators [(x² − 1)²] and [x² − 1] are zero.  The call
    returns, without raising, one element that is never a finite positive
    number, whatever [f_func] gives at 1: it is 0 when the mask fires, and
    an infinity or [nan] otherwise.  With [f(1) = 1] it is [-inf] for
    [Hernquist] and [+inf] for [NFW_Hilbert]. *)
Theorem convergence_at_scale_radius_is_not_finite_positive
  (f_func : npfloat -> npfloat) :
  (forall self : Hernquist.t,
      positive (Hernquist.r_s self) -> positive (Hernquist.kappa_s self) ->
      exists v : npfloat,
        returned (Hernquist.convergence_from_radii f_func [Hernquist.r_s self]) self = [v]
        /\ ~ positive v
        /\ (f_func (Fin 1) = Fin 1 -> v = NInf))
  /\
  (forall self : NFW_Hilbert.t,
      positive (NFW_Hilbert.r_s self) -> positive (NFW_Hilbert.kappa_s self) ->
      exists v : npfloat,
        returned (NFW_Hilbert.convergence_from_radii f_func [NFW_Hilbert.r_s self]) self = [v]
        /\ ~ positive v
        /\ (f_func (Fin 1) = Fin 1 -> v = PInf)).
Proof.
  split; intros self [a [Ha Hapos]] [k [Hk Hkpos]]; eexists;
    (split; [run_method; cbn [map]; reflexivity|]);
    rewrite Ha, Hk, fdiv_self by lra; rewrite square_of_one_minus_one.
  - replace (Fin 0 ** #2)%fl with (Fin 0) by (rewrite fpow_2; f_equal; ring).
    rewrite fdiv_zero, inf_of_sign_pos by assumption. split.
    + destruct (feqb (f_func (Fin 1)) #0); cbn [np_where0].
      * apply not_positive_zero.
      * apply not_positive_inf_times.
    + intros ->. rewrite np_where0_unmasked by (intros E; injection E as E; lra).
      rewrite fpow_2. cbn [fsub fadd fopp fmul].
      apply inf_of_sign_neg. lra.
  - split.
    + destruct (feqb (f_func (Fin 1)) #0); cbn [np_where0].
      * apply not_positive_zero.
      * apply not_positive_over_zero.
    + intros ->. rewrite np_where0_unmasked by (intros E; injection E as E; lra).
      cbn [fmul]. rewrite fdiv_zero. apply inf_of_sign_pos. lra.
Qed.

(** ** The auxiliary function of the specification and the samples *)

Lemma f_func_on_positive (x : R) :
  0 < x -> LensProfile.f_func (Fin x) = Fin (LensProfile.f_func_value x).
Proof.
  intros Hx. unfold LensProfile.f_func.
  destruct (Rlt_dec 0 x); [reflexivity|contradiction].
Qed.

Lemma f_func_at_one : LensProfile.f_func (Fin 1) = Fin 1.
Proof.
  rewrite f_func_on_positive by lra. unfold LensProfile.f_func_value.
  destruct (Rlt_dec 1 1); [lra|]. destruct (Req_dec_T 1 1); [reflexivity|lra].
Qed.

Lemma sample_critical_surface_density :
  LensProfile.critical_surface_density sample_externals 0.3 1
  = Fin (1 * 1 / (0.3 * (1 - 0.3))).
Proof.
  unfold LensProfile.critical_surface_density, sample_externals.
  cbn [c2_over_4piG angular_diameter_distance angular_diameter_distance_z1z2 fmul].
  apply fdiv_fin. lra.
Qed.

Lemma sample_critical_surface_density_positive :
  positive (LensProfile.critical_surface_density sample_externals 0.3 1).
Proof.
  eexists. split; [apply sample_critical_surface_density|].
  apply Rdiv_lt_0_compat; lra.
Qed.

Lemma sample_hernquist_scale_radius : positive (Hernquist.r_s sample_hernquist).
Proof.
  exists (5 / 1.8153). split; [apply fdiv_fin; lra | apply Rdiv_lt_0_compat; lra].
Qed.

Lemma positive_mul (a b : npfloat) : positive a -> positive b -> positive (a * b)%fl.
Proof.
  intros [x [-> Hx]] [y [-> Hy]]. exists (x * y). split; [reflexivity|].
  now apply Rmult_lt_0_compat.
Qed.

Lemma positive_div (a b : npfloat) : positive a -> positive b -> positive (a / b)%fl.
Proof.
  intros [x [-> Hx]] [y [-> Hy]]. exists (x / y). split; [apply fdiv_fin; lra|].
  now apply Rdiv_lt_0_compat.
Qed.

Lemma positive_cube (a : npfloat) : positive a -> positive (a ** #3)%fl.
Proof.
  intros [x [-> Hx]]. exists (x * x * x). split; [now apply fpow_3_pos|].
  repeat apply Rmult_lt_0_compat; assumption.
Qed.

Lemma positive_fin (x : R) : 0 < x -> positive (Fin x).
Proof. intros Hx. now exists x. Qed.

Lemma sample_hernquist_density_scale : positive (Hernquist.rho_s sample_hernquist).
Proof.
  cbn [Hernquist.rho_s sample_hernquist].
  apply positive_div; [apply positive_fin; lra|].
  apply positive_mul; [|apply positive_cube, sample_hernquist_scale_radius].
  apply positive_mul; apply positive_fin; [lra|apply PI_RGT_0].
Qed.

Lemma sample_hernquist_convergence_scale : positive (Hernquist.kappa_s sample_hernquist).
Proof.
  apply positive_div; [|exact sample_critical_surface_density_positive].
  apply positive_mul;
    [exact sample_hernquist_density_scale|exact sample_hernquist_scale_radius].
Qed.

Lemma sample_nfw_convergence_scale : positive (NFW_Hilbert.kappa_s sample_nfw).
Proof.
  apply positive_div; [|exact sample_critical_surface_density_positive].
  apply positive_mul; apply positive_fin; lra.
Qed.


(** ** The theorems at the sample profiles *)

Lemma convergence_at_scale_radius_is_not_finite_positive_witness :
  returned (Hernquist.convergence_from_radii LensProfile.f_func
              [Hernquist.r_s sample_hernquist]) sample_hernquist = [NInf]
  /\ returned (NFW_Hilbert.convergence_from_radii LensProfile.f_func
                 [NFW_Hilbert.r_s sample_nfw]) sample_nfw = [PInf].
Proof.
  destruct (convergence_at_scale_radius_is_not_finite_positive LensProfile.f_func)
    as [Hh Hn].
  destruct (Hh sample_hernquist sample_hernquist_scale_radius
              sample_hernquist_convergence_scale) as [v [Ev [_ Hv]]].
  destruct (Hn sample_nfw (positive_fin 20 ltac:(lra)) sample_nfw_convergence_scale)
    as [w [Ew [_ Hw]]].
  rewrite Ev, Ew, (Hv f_func_at_one), (Hw f_func_at_one). split; reflexivity.
Defined.

Lemma masked_evaluators_elementwise_witness :
  nth_error (returned (Hernquist.convergence_from_radii (fun _ => Fin 0)
                         (map Fin sample_radii)) sample_hernquist) 2
  = Some (Fin 0)
  /\
  nth_error (returned (NFW_Hilbert.convergence_from_radii LensProfile.f_func
                         [Fin 20]) sample_nfw) 0
  = Some (#2 * NFW_Hilbert.kappa_s sample_nfw
          * LensProfile.f_func (Fin 20 / Fin 20)
          / ((Fin 20 / Fin 20) ** #2 - #1))%fl.
Proof.
  split.
  - destruct (masked_evaluators_elementwise (fun _ => Fin 0)) as [Hh _].
    destruct (Hh sample_hernquist (map Fin sample_radii) 2%nat (Fin 5) eq_refl)
      as [Hmasked _].
    apply (Hmasked eq_refl).
  - destruct (masked_evaluators_elementwise LensProfile.f_func) as [_ Hn].
    destruct (Hn sample_nfw [Fin 20] 0%nat (Fin 20) eq_refl) as [_ Hunmasked].
    apply Hunmasked.
    cbn [NFW_Hilbert.r_s sample_nfw]. rewrite fdiv_self, f_func_at_one by lra.
    intros E. injection E as E. lra.
Defined.

Lemma nfw_deflection_is_not_masked_witness :
  nth_error (returned (NFW_Hilbert.deflection_angles_from_radii (fun _ => Fin 0)
                         [Fin 40]) sample_nfw) 0
  = Some (#4 * NFW_Hilbert.kappa_s sample_nfw * Fin 20
          * ((flog (Fin 40 / Fin 20 / #2) + (#1 - #0)) / (Fin 40 / Fin 20)))%fl
  /\
  nth_error (returned (NFW_Hilbert.convergence_from_radii (fun _ => Fin 0)
                         [Fin 40]) sample_nfw) 0
  = Some (Fin 0).
Proof.
  destruct (nfw_deflection_is_not_masked (fun _ => Fin 0)) as [_ [H _]].
  destruct (H sample_nfw [Fin 40] 0%nat (Fin 40) eq_refl eq_refl) as [Hd [_ Hk]].
  split; [exact Hd | exact Hk].
Defined.



(** * Further properties of the profiles *)

(** ** Values that are not finite *)

Lemma not_finite_inf_of_sign (r : R) : ~ finite (inf_of_sign r).
Proof.
  intros [y E]. unfold inf_of_sign in E.
  destruct (Rlt_dec 0 r); [discriminate|]. destruct (Rlt_dec r 0); discriminate.
Qed.

Lemma not_finite_over_zero (b : npfloat) : ~ finite (b / Fin 0)%fl.
Proof.
  destruct b as [y| | |].
  - rewrite fdiv_zero. apply not_finite_inf_of_sign.
  - cbn [fdiv]. destruct (Rlt_dec 0 0); intros [z E]; discriminate.
  - cbn [fdiv]. destruct (Rlt_dec 0 0); intros [z E]; discriminate.
  - intros [z E]; discriminate.
Qed.

Lemma not_finite_mul_l (a b : npfloat) : ~ finite a -> ~ finite (a * b)%fl.
Proof.
  intros Ha. destruct a as [x| | |]; [elim Ha; now exists x| | |];
    destruct b as [y| | |]; cbn [fmul];
    try apply not_finite_inf_of_sign; intros [z E]; discriminate.
Qed.

Lemma not_finite_mul_r (a b : npfloat) : ~ finite b -> ~ finite (a * b)%fl.
Proof.
  intros Hb. destruct b as [y| | |]; [elim Hb; now exists y| | |];
    destruct a as [x| | |]; cbn [fmul];
    try apply not_finite_inf_of_sign; intros [z E]; discriminate.
Qed.

Lemma fpow_base_one (b : npfloat) : (Fin 1 ** b)%fl = Fin 1.
Proof.
  destruct b as [y| | |]; cbn [fpow].
  - destruct (Req_dec_T y 0); [reflexivity|].
    unfold pow_finite. destruct (Rlt_dec 0 1); [|lra].
    f_equal. unfold Rpower. rewrite ln_1, Rmult_0_r. apply exp_0.
  - unfold pow_to_inf. rewrite Rabs_R1.
    destruct (Req_dec_T 1 1); [reflexivity|lra].
  - unfold pow_to_inf. rewrite Rabs_R1.
    destruct (Req_dec_T 1 1); [reflexivity|lra].
  - destruct (Req_dec_T 1 1); [reflexivity|lra].
Qed.

Lemma fmul_one_l_fin (x : R) : (Fin 1 * Fin x)%fl = Fin x.
Proof. cbn [fmul]. f_equal. ring. Qed.

(** ** The constructor of [SphericalPowerLaw] *)

(** X2. With an Einstein radius of 0 and a finite critical surface density
    the constructor does not fail: m_ein is 0 and rho_s is 0/0, [nan]. *)
Theorem power_law_zero_einstein_radius
  (ext : Externals) (slope : npfloat) (z_s z_l : R)
  (self : SphericalPowerLaw.t) :
  SphericalPowerLaw.init ext (Fin 0) slope z_s z_l = Ok self ->
  finite (SphericalPowerLaw.critical_surface_density_of_lens self) ->
  SphericalPowerLaw.m_ein self = Fin 0 /\ SphericalPowerLaw.rho_s self = NaN.
Proof.
  unfold SphericalPowerLaw.init. intros H [S HS].
  destruct (LensProfile.init ext z_l z_s) as [super|e]; cbn [and_then] in H;
    [|discriminate H].
  cbv zeta in H. rewrite !fpow_2 in H. cbn [fmul] in H. injection H as <-.
  unfold SphericalPowerLaw.critical_surface_density_of_lens in *.
  cbn [SphericalPowerLaw.m_ein SphericalPowerLaw.rho_s SphericalPowerLaw.base] in *.
  rewrite HS. cbn [fmul].
  replace (PI * (0 * 0) * S) with 0 by ring.
  replace (PI * (0 * 0)) with 0 by ring.
  split; [reflexivity|]. rewrite fdiv_zero. apply inf_of_sign_zero.
Qed.

Lemma power_law_zero_einstein_radius_witness :
  exists self : SphericalPowerLaw.t,
    SphericalPowerLaw.init sample_externals (Fin 0) (Fin 2) 1 0.3 = Ok self
    /\ SphericalPowerLaw.m_ein self = Fin 0 /\ SphericalPowerLaw.rho_s self = NaN.
Proof.
  assert (E : exists self,
             SphericalPowerLaw.init sample_externals (Fin 0) (Fin 2) 1 0.3 = Ok self
             /\ SphericalPowerLaw.critical_surface_density_of_lens self
                = LensProfile.critical_surface_density sample_externals 0.3 1).
  { unfold SphericalPowerLaw.init. rewrite base_init_succeeds by lra.
    eexists. split; reflexivity. }
  destruct E as [self [Hinit HS]]. exists self. split; [exact Hinit|].
  apply (power_law_zero_einstein_radius sample_externals (Fin 2) 1 0.3 self Hinit).
  rewrite HS, sample_critical_surface_density. eexists. reflexivity.
Defined.

(** ** The evaluators of [SphericalPowerLaw] *)

(** X3. At a radius equal to a finite non-zero Einstein radius the base of
    the power is 1, so for every slope the deflection is the Einstein
    radius, the convergence is (3 − slope)/2 and the surface mass density
    is Σ_cr·(3 − slope)/2. *)
Theorem power_law_at_einstein_radius (self : SphericalPowerLaw.t) (E : R) :
  SphericalPowerLaw.einstein_radius self = Fin E ->
  E <> 0 ->
  returned (SphericalPowerLaw.deflection_angles_from_radii [Fin E]) self = [Fin E]
  /\ returned (SphericalPowerLaw.convergence_from_radii [Fin E]) self
     = [((#3 - SphericalPowerLaw.slope self) / #2)%fl]
  /\ returned (SphericalPowerLaw.surface_mass_density_from_radii [Fin E]) self
     = [(SphericalPowerLaw.critical_surface_density_of_lens self
         * ((#3 - SphericalPowerLaw.slope self) / #2))%fl].
Proof.
  intros HE HE0. run_method. rewrite HE. cbn [map].
  rewrite (fdiv_self E HE0), !fpow_base_one, !fmul_one_r. auto.
Qed.

Lemma power_law_at_einstein_radius_witness :
  returned (SphericalPowerLaw.deflection_angles_from_radii [Fin 1.2]) sample_power_law
  = [Fin 1.2]
  /\ returned (SphericalPowerLaw.convergence_from_radii [Fin 1.2]) sample_power_law
     = [((#3 - SphericalPowerLaw.slope sample_power_law) / #2)%fl]
  /\ returned (SphericalPowerLaw.surface_mass_density_from_radii [Fin 1.2])
       sample_power_law
     = [(SphericalPowerLaw.critical_surface_density_of_lens sample_power_law
         * ((#3 - SphericalPowerLaw.slope sample_power_law) / #2))%fl].
Proof.
  apply (power_law_at_einstein_radius sample_power_law 1.2); [reflexivity|lra].
Defined.

(** X4. With slope 1 the exponent [slope − 1] is zero: the convergence is 1
    and the surface mass density is Σ_cr at every element, for every radii
    array and every Einstein radius. *)
Theorem power_law_slope_one_is_uniform
  (self : SphericalPowerLaw.t) (radii : ndarray) :
  SphericalPowerLaw.slope self = Fin 1 ->
  returned (SphericalPowerLaw.convergence_from_radii radii) self
  = map (fun _ => Fin 1) radii
  /\ returned (SphericalPowerLaw.surface_mass_density_from_radii radii) self
     = map (fun _ => SphericalPowerLaw.critical_surface_density_of_lens self) radii.
Proof.
  intros Hs. run_method. rewrite Hs.
  assert (E0 : (Fin 1 - #1)%fl = Fin 0) by (cbn [fsub fadd fopp]; f_equal; ring).
  assert (E1 : ((#3 - Fin 1) / #2)%fl = Fin 1).
  { cbn [fsub fadd fopp]. rewrite fdiv_fin by lra. f_equal. field. }
  rewrite E0, E1. split; apply map_constant_ext; intros r; rewrite fpow_zero.
  - apply fmul_one_l_fin.
  - now rewrite !fmul_one_r.
Qed.

Lemma power_law_slope_one_is_uniform_witness :
  let self :=
    {| SphericalPowerLaw.base := sample_base;
       SphericalPowerLaw.einstein_radius := Fin 1.2;
       SphericalPowerLaw.slope := Fin 1;
       SphericalPowerLaw.m_ein := SphericalPowerLaw.m_ein sample_power_law;
       SphericalPowerLaw.rho_s := SphericalPowerLaw.rho_s sample_power_law |} in
  returned (SphericalPowerLaw.convergence_from_radii (map Fin sample_radii)) self
  = map (fun _ => Fin 1) (map Fin sample_radii)
  /\ returned (SphericalPowerLaw.surface_mass_density_from_radii (map Fin sample_radii))
       self
     = map (fun _ => SphericalPowerLaw.critical_surface_density_of_lens self)
         (map Fin sample_radii).
Proof.
  intros self. apply (power_law_slope_one_is_uniform self). reflexivity.
Defined.

(** ** The masked evaluators at the scale radius *)

Lemma finite_fin (x : R) : finite (Fin x).
Proof. now exists x. Qed.

Lemma masked_is_zero_or_not_finite (f v : npfloat) :
  ~ finite v ->
  let out := np_where0 (feqb f (Fin 0)) v in
  (out = Fin 0 \/ ~ finite out) /\ (out = Fin 0 <-> f = Fin 0).
Proof.
  intros Hv out. subst out.
  destruct (feqb f (Fin 0)) eqn:E; cbn [np_where0].
  - apply feqb_zero_iff in E. split; [now left|]. split; auto.
  - split; [now right|]. split.
    + intros ->. elim Hv. apply finite_fin.
    + intros Hf. apply feqb_zero_iff in Hf. congruence.
Qed.

(** X11. At a radius equal to a finite non-zero scale radius every masked
    evaluator of [Hernquist] and [NFW_Hilbert] divides by zero and returns
    one element that is either 0 or not finite; it is 0 exactly when
    [f_func] is 0 at x = 1, that is when the mask fires. *)
Theorem masked_evaluators_at_scale_radius (f_func : npfloat -> npfloat) :
  (forall (self : Hernquist.t) (r_s : R),
      Hernquist.r_s self = Fin r_s -> r_s <> 0 ->
      forall e : evaluator, e <> density_from_radii ->
      exists v : npfloat,
        returned (call f_func e [Fin r_s]) (IsHernquist self) = [v]
        /\ (v = Fin 0 \/ ~ finite v)
        /\ (v = Fin 0 <-> f_func (Fin 1) = Fin 0))
  /\
  (forall (self : NFW_Hilbert.t) (r_s : R),
      NFW_Hilbert.r_s self = Fin r_s -> r_s <> 0 ->
      forall e : evaluator,
        e = surface_mass_density_from_radii \/ e = convergence_from_radii ->
      exists v : npfloat,
        returned (call f_func e [Fin r_s]) (IsNFW_Hilbert self) = [v]
        /\ (v = Fin 0 \/ ~ finite v)
        /\ (v = Fin 0 <-> f_func (Fin 1) = Fin 0)).
Proof.
  split; intros self r_s Hrs Hnz e He.
  - destruct e; [now elim He| | |]; eexists;
      (split; [run_method; cbn [map]; reflexivity|]);
      rewrite Hrs, (fdiv_self r_s Hnz), square_of_one_minus_one;
      apply masked_is_zero_or_not_finite.
    + replace (Fin 0 ** #2)%fl with (Fin 0) by (rewrite fpow_2; f_equal; ring).
      apply not_finite_mul_l, not_finite_over_zero.
    + replace (Fin 0 ** #2)%fl with (Fin 0) by (rewrite fpow_2; f_equal; ring).
      apply not_finite_mul_l, not_finite_over_zero.
    + apply not_finite_mul_r, not_finite_over_zero.
  - destruct He as [-> | ->]; eexists;
      (split; [run_method; cbn [map]; reflexivity|]);
      rewrite Hrs, (fdiv_self r_s Hnz), square_of_one_minus_one;
      apply masked_is_zero_or_not_finite.
    + apply not_finite_mul_r, not_finite_over_zero.
    + apply not_finite_over_zero.
Qed.

Lemma masked_evaluators_at_scale_radius_witness :
  exists v : npfloat,
    returned (call LensProfile.f_func deflection_angles_from_radii
                [Hernquist.r_s sample_hernquist]) (IsHernquist sample_hernquist) = [v]
    /\ ~ finite v.
Proof.
  destruct sample_hernquist_scale_radius as [a [Ha Hapos]].
  destruct (masked_evaluators_at_scale_radius LensProfile.f_func) as [Hh _].
  destruct (Hh sample_hernquist a Ha (Rgt_not_eq _ _ Hapos)
              deflection_angles_from_radii ltac:(discriminate))
    as [v [Ev [Hv Hz]]].
  exists v. rewrite Ha. split; [exact Ev|].
  destruct Hv as [Hv|Hv]; [|exact Hv].
  apply Hz in Hv. rewrite f_func_at_one in Hv. injection Hv as Hv. lra.
Defined.


(** * Rounding: what fails and what holds in floating point *)

(** ** In binary64 *)



(** ** In every rounding format *)

Section RoundingFacts.

Variable fmt : Format.



Lemma round_cases (v : R) :
  (Rounded.round fmt v = PInf /\ max_float fmt < rnd fmt v)
  \/ (Rounded.round fmt v = NInf /\ rnd fmt v < - max_float fmt)
  \/ (Rounded.round fmt v = Fin (rnd fmt v)
      /\ - max_float fmt <= rnd fmt v <= max_float fmt).
Proof.
  unfold Rounded.round.
  destruct (Rlt_dec (max_float fmt) (rnd fmt v)) as [H|H]; [left; auto|].
  destruct (Rlt_dec (rnd fmt v) (- max_float fmt)) as [H'|H']; [right; left; auto|].
  right; right. split; [reflexivity|lra].
Qed.



Lemma round_one : Rounded.round fmt 1 = Fin 1.
Proof.
  pose proof (max_float_range fmt) as Hm.
  destruct (round_cases 1) as [[_ H]|[[_ H]|[H _]]];
    rewrite (rnd_one fmt) in *; [lra|lra|exact H].
Qed.

(** *** Order *)







(** *** The denominator [x·(1 + x)²] of the NFW density

    [one_plus], [squared] and [shape] are the three rounded results on
    the way, as reals; [nfw_shape] is the float the code computes. *)

Let one_plus (x : R) : R := rnd fmt (1 + x).
Let squared (x : R) : R := rnd fmt (one_plus x * one_plus x).
Let shape (x : R) : R := rnd fmt (x * squared x).







Lemma shape_at_zero : shape 0 = 0.
Proof. unfold shape. rewrite Rmult_0_l. apply rnd_zero. Qed.









End RoundingFacts.



(** ** Rounding errors *)

Section RoundingErrors.

Variable fmt : Format.













Lemma normal_is_finite (a : npfloat) :
  Rounded.normal fmt a -> exists v : R, a = Fin v.
Proof. intros [v [E _]]. now exists v. Qed.

Lemma rounded_not_fin (a : npfloat) :
  (forall v, a <> Fin v) -> forall w, Rounded.rounded fmt a <> Fin w.
Proof.
  intros Ha w. destruct a as [v| | |]; cbn [Rounded.rounded]; try discriminate.
  now elim (Ha v).
Qed.










End RoundingErrors.





(** ** The format that rounds nothing *)





